(** * swarms.tools.prebuilt.code_executor

  A shallow embedding of [TikTokenizer] and [CodeExecutor] from
  [swarms/tools/prebuilt/code_executor.py], and the properties of the
  chunked token count and of the output truncation policy.

  Python [str] is modelled by [string] (one [ascii] per character),
  [len] and slice indices by [nat], the integer attribute
  [max_output_length] by [Z].  The collaborators that live outside the
  repository (the tiktoken encoding, black, the interpreter process, the
  thread scheduler) are arguments of the model. *)

From Stdlib Require Import List String Ascii ZArith Arith Bool Lia DecimalString
  Permutation.
Import ListNotations.

Local Open Scope string_scope.
Local Open Scope list_scope.
Local Open Scope nat_scope.

(** ** Python primitives used by the module *)

Module Py.

(** [range(i, stop, step)] for a positive [step]: the indices are produced
    one after the other while they stay below [stop]. *)
Fixpoint range_from (fuel i stop step : nat) : list nat :=
  match fuel with
  | O => []
  | S fuel' =>
      if i <? stop then i :: range_from fuel' (i + step) stop step else []
  end.

(** Every iteration advances by at least one, so [stop - start] iterations
    are enough. *)
Definition range (start stop step : nat) : list nat :=
  range_from (stop - start) start stop step.

(** [s[start : start + width]]: slices clip at the end of the string. *)
Definition slice (s : string) (start width : nat) : string :=
  substring start width s.

(** The index at which [s[:stop]] ends: a negative [stop] counts from the
    end, and the result is clamped to [0 .. len s]. *)
Definition stop_index (len : nat) (stop : Z) : nat :=
  if (stop <? 0)%Z
  then Z.to_nat (Z.max 0 (Z.of_nat len + stop))
  else Nat.min (Z.to_nat stop) len.

(** [s[:stop]] *)
Definition slice_to (s : string) (stop : Z) : string :=
  substring 0 (stop_index (String.length s) stop) s.

(** Truth value of an [int]. *)
Definition truthy (z : Z) : bool := negb (z =? 0)%Z.

(** [str(n)] *)
Definition str_of_nat (n : nat) : string :=
  NilEmpty.string_of_uint (Nat.to_uint n).

Definition str_of_Z (z : Z) : string :=
  NilZero.string_of_int (Z.to_int z).

Definition newline : string := String (ascii_of_nat 10) EmptyString.

(** [needle in hay] *)
Definition contains (needle hay : string) : Prop :=
  exists before after, hay = (before ++ needle ++ after)%string.

(** [s.endswith(suffix)] *)
Definition endswith (s suffix : string) : Prop :=
  exists before, s = (before ++ suffix)%string.

End Py.

(** ** TikTokenizer *)

Module TikTokenizer.

(** The object returned by [tiktoken.get_encoding]: the two methods the
    class calls.  [decode] may raise. *)
Record Encoding : Type := {
  enc_encode : string -> list nat;
  enc_decode : list nat -> option string
}.

Record t : Type := {
  model_name : string;
  encoding : Encoding
}.

Definition encode (self : t) (s : string) : list nat :=
  enc_encode (encoding self) s.

Definition decode (self : t) (tokens : list nat) : option string :=
  enc_decode (encoding self) tokens.

Definition chunk_size : nat := 1000.
Definition max_workers : nat := 10.

(** [[string[i : i + 1000] for i in range(0, len(string), 1000)]] *)
Definition chunks (s : string) : list string :=
  map (fun i => Py.slice s i chunk_size)
      (Py.range 0 (String.length s) chunk_size).

(** *** The thread pool

    [count_tokens_in_chunk] runs [num_tokens += len(encode(chunk))] on a
    pool thread.  The augmented assignment reads the shared [num_tokens]
    first, then evaluates the right-hand side, then writes the sum back;
    other threads may run between the read and the write.  A worker
    therefore has two observable steps. *)

Record worker : Type := {
  chunk : string;
  (** [Some v]: the value of [num_tokens] read by this worker, not yet
      written back *)
  loaded : option nat
}.

Record pool : Type := {
  num_tokens : nat;
  (** chunks no thread has picked up yet, in submission order *)
  pending : list string;
  (** the threads that are busy with a chunk; at most [max_workers] *)
  workers : list worker
}.

Inductive event : Type :=
| Take            (** an idle thread picks up the next pending chunk *)
| Fetch (k : nat) (** busy thread [k] reads [num_tokens] *)
| Put (k : nat).  (** busy thread [k] writes [num_tokens] and goes idle *)

Definition replace_nth {A} (k : nat) (x : A) (l : list A) : list A :=
  firstn k l ++ x :: skipn (S k) l.

Definition remove_nth {A} (k : nat) (l : list A) : list A :=
  firstn k l ++ skipn (S k) l.

Definition chunk_count (self : t) (c : string) : nat :=
  List.length (encode self c).

(** One scheduling decision.  A decision that is not enabled in the
    current state leaves it unchanged. *)
Definition step (self : t) (st : pool) (e : event) : pool :=
  match e with
  | Take =>
      match pending st with
      | c :: rest =>
          if List.length (workers st) <? max_workers
          then {| num_tokens := num_tokens st;
                  pending := rest;
                  workers := workers st ++ [{| chunk := c; loaded := None |}] |}
          else st
      | [] => st
      end
  | Fetch k =>
      match nth_error (workers st) k with
      | Some {| chunk := c; loaded := None |} =>
          {| num_tokens := num_tokens st;
             pending := pending st;
             workers := replace_nth k {| chunk := c; loaded := Some (num_tokens st) |}
                                    (workers st) |}
      | _ => st
      end
  | Put k =>
      match nth_error (workers st) k with
      | Some {| chunk := c; loaded := Some v |} =>
          {| num_tokens := v + chunk_count self c;
             pending := pending st;
             workers := remove_nth k (workers st) |}
      | _ => st
      end
  end.

(** A worker that runs to completion without interruption, starting from
    the counter value [n]. *)
Definition finish (self : t) (n : nat) (w : worker) : nat :=
  match loaded w with
  | Some v => v + chunk_count self (chunk w)
  | None => n + chunk_count self (chunk w)
  end.

(** [concurrent.futures.wait(futures)] and the exit of the [with] block:
    the call returns only when every chunk has been processed.  After the
    given decisions the busy threads finish one after the other, then the
    pending chunks are processed one at a time. *)
Definition join (self : t) (st : pool) : nat :=
  fold_left (fun n c => n + chunk_count self c) (pending st)
            (fold_left (finish self) (workers st) (num_tokens st)).

Definition submit_all (cs : list string) : pool :=
  {| num_tokens := 0; pending := cs; workers := [] |}.

(** [count_tokens(string)] under the thread schedule [sched]. *)
Definition count_tokens (self : t) (sched : list event) (s : string) : nat :=
  join self (fold_left (step self) sched (submit_all (chunks s))).

(** The sum of the per-chunk counts, each computed on its own. *)
Definition sum_chunk_counts (self : t) (cs : list string) : nat :=
  list_sum (map (chunk_count self) cs).

(** Schedules in which every read of the counter is followed at once by
    the write of the same thread. *)
Inductive serialised : list event -> Prop :=
| serialised_nil : serialised []
| serialised_take sched : serialised sched -> serialised (Take :: sched)
| serialised_run k sched :
    serialised sched -> serialised (Fetch k :: Put k :: sched).

(** The encoder counts are additive over concatenation (a context-free
    encoder). *)
Definition additive (self : t) : Prop :=
  forall a b : string,
    chunk_count self (a ++ b)%string = chunk_count self a + chunk_count self b.

End TikTokenizer.

(** ** CodeExecutor *)

Module CodeExecutor.

(** [subprocess.CompletedProcess], with [capture_output=True, text=True]. *)
Record CompletedProcess : Type := {
  args : list string;
  returncode : Z;
  stdout : string;
  stderr : string
}.

Inductive exn : Type :=
| ValueError (msg : string)
| RuntimeError (msg : string)
| CalledProcessError (p : CompletedProcess)
| OSError (msg : string).

Inductive result (A : Type) : Type :=
| Return (a : A)
| Raise (e : exn).
Arguments Return {A} a.
Arguments Raise {A} e.

Inductive level : Type := INFO | WARNING | ERROR.

(** What a call does besides computing its result, in program order. *)
Inductive effect : Type :=
| Log (lvl : level) (msg : string)
| FormatStr (code : string)
| SubprocessRun (argv : list string)
| PrintLine (line : string).

(** A computation: the effects it performed and how it ended. *)
Definition M (A : Type) : Type := list effect * result A.

Definition ret {A} (a : A) : M A := ([], Return a).
Definition raise {A} (e : exn) : M A := ([], Raise e).
Definition emit (e : effect) : M unit := ([e], Return tt).

Definition bind {A B} (m : M A) (k : A -> M B) : M B :=
  match m with
  | (tr, Return a) => let (tr', r) := k a in (tr ++ tr', r)
  | (tr, Raise e) => (tr, Raise e)
  end.

(** [try: m except ...: handler] *)
Definition try_except {A} (m : M A) (handler : exn -> M A) : M A :=
  match m with
  | (tr, Return a) => (tr, Return a)
  | (tr, Raise e) => let (tr', r) := handler e in (tr ++ tr', r)
  end.

Notation "x <- m ;; k" := (bind m (fun x => k))
  (at level 61, m at next level, right associativity).
Notation "m ;;; k" := (bind m (fun _ => k))
  (at level 61, right associativity).

(** The collaborators outside the process. *)
Record World : Type := {
  (** [black.format_str(code, mode=black.FileMode())]: the formatted code,
      or [inl msg] when the import or the call raises an exception whose
      text is [msg] *)
  black_format_str : string -> string + string;
  (** the operating system running [argv]: the finished process, or
      [inl msg] when it cannot be started *)
  spawn : list string -> string + CompletedProcess
}.

Record t : Type := {
  max_output_length : Z;
  artifacts_dir : string;
  language : string;
  tokenizer : TikTokenizer.t
}.

(** [subprocess.run(argv, capture_output=True, text=True, check=True)] *)
Definition subprocess_run (w : World) (argv : list string)
  : M CompletedProcess :=
  emit (SubprocessRun argv) ;;;
  match spawn w argv with
  | inl msg => raise (OSError msg)
  | inr p =>
      if (returncode p =? 0)%Z then ret p else raise (CalledProcessError p)
  end.

Definition format_code (w : World) (code : string) : M string :=
  emit (FormatStr code) ;;;
  match black_format_str w code with
  | inr formatted_code => ret formatted_code
  | inl e =>
      emit (Log ERROR ("Error formatting code: " ++ e)) ;;;
      raise (ValueError ("Error formatting code: " ++ e))
  end.

Definition truncation_marker : string := "...".

Definition execute (w : World) (self : t)
           (sched : list TikTokenizer.event) (code : string) : M string :=
  try_except
    (formatted_code <- format_code w code ;;
     emit (Log INFO ("Executing code:" ++ Py.newline ++ formatted_code)) ;;;
     completed_process <-
       subprocess_run w [language self; "-c"; formatted_code] ;;
     let output := stdout completed_process in
     emit (Log INFO ("Code output:" ++ Py.newline ++ output)) ;;;
     let token_count :=
       TikTokenizer.count_tokens (tokenizer self) sched output in
     emit (PrintLine (Py.str_of_nat token_count)) ;;;
     if Py.truthy (max_output_length self)
        && (Z.of_nat token_count >? max_output_length self)%Z
     then
       emit (Log WARNING
               ("Output length exceeds "
                ++ Py.str_of_Z (max_output_length self)
                ++ " characters. Truncating output.")) ;;;
       ret (Py.slice_to output (max_output_length self)
            ++ truncation_marker)%string
     else ret output)
    (fun e =>
       match e with
       | CalledProcessError p =>
           emit (Log ERROR ("Error executing code: " ++ stderr p)) ;;;
           raise (RuntimeError ("Error executing code: " ++ stderr p))
       | _ => raise e
       end).

End CodeExecutor.

(** ** Notions used in the statements *)

Module Spec.

(** The ceiling of [a / b]. *)
Definition ceil_div (a b : nat) : nat := (a + b - 1) / b.

(** [[''.join(cs)]] *)
Definition join_str (cs : list string) : string :=
  fold_right append EmptyString cs.

End Spec.

(** ** Concrete collaborators, for running the model *)

Module Fixtures.

Import TikTokenizer CodeExecutor.

(** One token per character. *)
Definition byte_encode (s : string) : list nat :=
  map nat_of_ascii (list_ascii_of_string s).

Definition byte_decode (tokens : list nat) : option string :=
  if forallb (fun n => n <? 256) tokens
  then Some (string_of_list_ascii (map ascii_of_nat tokens))
  else None.

Definition byte_tokenizer : TikTokenizer.t :=
  {| model_name := "bytes";
     encoding := {| enc_encode := byte_encode; enc_decode := byte_decode |} |}.

(** A byte-pair vocabulary with one merge: the pair "ab" is the token 256,
    every other character is its own token. *)
Fixpoint pair_encode (s : string) : list nat :=
  match s with
  | EmptyString => []
  | String c rest =>
      match rest with
      | String d rest' =>
          if (Ascii.eqb c "a" && Ascii.eqb d "b")%bool
          then 256 :: pair_encode rest'
          else nat_of_ascii c :: pair_encode rest
      | EmptyString => [nat_of_ascii c]
      end
  end.

Fixpoint pair_decode (tokens : list nat) : option string :=
  match tokens with
  | [] => Some EmptyString
  | n :: rest =>
      match pair_decode rest with
      | None => None
      | Some s =>
          if n <? 256 then Some (String (ascii_of_nat n) s)
          else if n =? 256 then Some ("ab" ++ s)%string
          else None
      end
  end.

Definition pair_tokenizer : TikTokenizer.t :=
  {| model_name := "pairs";
     encoding := {| enc_encode := pair_encode; enc_decode := pair_decode |} |}.

Fixpoint replicate (n : nat) (c : ascii) : string :=
  match n with
  | O => EmptyString
  | S n' => String c (replicate n' c)
  end.

(** 1001 characters: the pair "ab" lies across the end of the first chunk. *)
Definition text_ab : string := (replicate 999 "x" ++ "ab")%string.

(** 1001 characters, two chunks. *)
Definition text_a : string := replicate 1001 "a".

(** Two threads pick up the first two chunks, both read the counter, then
    both write. *)
Definition overlapping : list event :=
  [Take; Take; Fetch 0; Fetch 1; Put 0; Put 0].

(** A formatter that accepts everything and an interpreter process that
    always ends the same way. *)
Definition stub_world (rc : Z) (out err : string) : World :=
  {| black_format_str := fun code => inr code;
     spawn := fun argv =>
                inr {| args := argv; returncode := rc;
                       stdout := out; stderr := err |} |}.

(** A formatter that rejects everything. *)
Definition unparsable_world (msg : string) : World :=
  {| black_format_str := fun _ => inl msg;
     spawn := fun argv => inl "not reached" |}.

Definition executor (max : Z) : CodeExecutor.t :=
  {| max_output_length := max;
     artifacts_dir := "artifacts";
     language := "python3";
     tokenizer := byte_tokenizer |}.

(** The process the stub interpreter reports for [python3 -c code]. *)
Definition stub_process (code : string) (rc : Z) (out err : string)
  : CompletedProcess :=
  {| args := ["python3"; "-c"; code];
     returncode := rc; stdout := out; stderr := err |}.

End Fixtures.

(** ** Invariants of the thread pool *)

Section PoolInvariants.

Import TikTokenizer.

Variable self : TikTokenizer.t.

(** The count still owed by the busy threads. *)
Definition owed (ws : list worker) : nat :=
  list_sum (map (fun w => chunk_count self (chunk w)) ws).

(** No busy thread is between its read and its write. *)
Definition quiet (st : pool) : Prop :=
  Forall (fun w => loaded w = None) (workers st).

Definition weight (st : pool) : nat :=
  num_tokens st + owed (workers st) + sum_chunk_counts self (pending st).

(** What the busy threads and the pending chunks still have to add. *)
Definition remaining (st : pool) : nat :=
  owed (workers st) + sum_chunk_counts self (pending st).

(** Neither the counter nor a value a thread has read, once the counts
    still owed are added, exceeds [total]. *)
Definition bounded (total : nat) (st : pool) : Prop :=
  num_tokens st + remaining st <= total
  /\ forall w v, In w (workers st) -> loaded w = Some v ->
                 v + remaining st <= total.


End PoolInvariants.

(** ** Construction of the tokenizer and of the executor *)

Module Construction.

Import TikTokenizer CodeExecutor.

(** What the constructors call outside the module.  [inl msg] and
    [Some msg] stand for a raised exception whose text is [msg]. *)
Record Host : Type := {
  (** [tiktoken.get_encoding(name)] *)
  get_encoding : string -> string + Encoding;
  (** [os.makedirs(path, exist_ok=True)] *)
  makedirs : string -> option string;
  (** [logger.add(path, format=..., level=...)] *)
  add_sink : string -> option string
}.

Inductive init_effect : Type :=
| GetEncoding (name : string)
| MakeDirs (path : string)
| AddSink (path format lvl : string)
| LogInfo (msg : string).

Definition default_model_name : string := "o200k_base".
Definition default_max_output_length : Z := 1000.
Definition default_artifacts_directory : string := "artifacts".
Definition default_language : string := "python3".

(** [TikTokenizer.__init__(model_name)] *)
Definition tokenizer_init (h : Host) (name : string)
  : list init_effect * result TikTokenizer.t :=
  ([GetEncoding name],
   match get_encoding h name with
   | inr enc => Return {| model_name := name; encoding := enc |}
   | inl e =>
       Raise (ValueError ("Failed to initialize tokenizer with model '"
                          ++ name ++ "': " ++ e))
   end).

Definition starts_with_sep (s : string) : bool :=
  match s with
  | String c _ => Ascii.eqb c "/"
  | EmptyString => false
  end.

Fixpoint ends_with_sep (s : string) : bool :=
  match s with
  | EmptyString => false
  | String c EmptyString => Ascii.eqb c "/"
  | String _ rest => ends_with_sep rest
  end.

(** [os.path.join(a, b)] on a POSIX system. *)
Definition path_join (a b : string) : string :=
  if starts_with_sep b then b
  else if (String.eqb a "" || ends_with_sep a)%bool then (a ++ b)%string
  else (a ++ "/" ++ b)%string.

Definition log_file : string := "code_execution.log".

(** [CodeExecutor.setup_logging()] *)
Definition setup_logging (h : Host) (artifacts_dir : string)
  : list init_effect * result unit :=
  let sink := path_join artifacts_dir log_file in
  match add_sink h sink with
  | Some e => ([AddSink sink "{time} {level} {message}" "DEBUG"],
               Raise (OSError e))
  | None =>
      ([AddSink sink "{time} {level} {message}" "DEBUG";
        LogInfo "Logger initialized and artifacts directory set up."],
       Return tt)
  end.

(** [CodeExecutor.__init__(max_output_length, artifacts_directory,
    language)] *)
Definition executor_init (h : Host) (max_output_length : Z)
           (artifacts_directory language : string)
  : list init_effect * result CodeExecutor.t :=
  match makedirs h artifacts_directory with
  | Some e => ([MakeDirs artifacts_directory], Raise (OSError e))
  | None =>
      match setup_logging h artifacts_directory with
      | (tr, Raise e) => (MakeDirs artifacts_directory :: tr, Raise e)
      | (tr, Return _) =>
          match tokenizer_init h default_model_name with
          | (tr', Raise e) =>
              (MakeDirs artifacts_directory :: tr ++ tr', Raise e)
          | (tr', Return tok) =>
              (MakeDirs artifacts_directory :: tr ++ tr',
               Return {| CodeExecutor.max_output_length := max_output_length;
                         artifacts_dir := artifacts_directory;
                         CodeExecutor.language := language;
                         tokenizer := tok |})
          end
      end
  end.

End Construction.

(** ** More collaborators and schedules *)

Module Scenarios.

Import TikTokenizer CodeExecutor Construction.

(** Two tokens per character, as for text outside the vocabulary. *)
Definition wide_encode (s : string) : list nat :=
  flat_map (fun c => [nat_of_ascii c; 0]) (list_ascii_of_string s).

Definition wide_tokenizer : TikTokenizer.t :=
  {| model_name := "wide";
     encoding := {| enc_encode := wide_encode;
                    enc_decode := fun _ => None |} |}.

Definition executor_with (tok : TikTokenizer.t) (max : Z) : CodeExecutor.t :=
  {| max_output_length := max;
     artifacts_dir := "artifacts";
     language := "python3";
     tokenizer := tok |}.

(** The first [n] chunks are picked up, every thread reads the counter,
    then every thread writes. *)
Definition all_overlapping (n : nat) : list event :=
  repeat Take n ++ map Fetch (seq 0 n) ++ repeat (Put 0) n.

(** An interpreter that cannot be started. *)
Definition missing_interpreter (msg : string) : World :=
  {| black_format_str := fun code => inr code;
     spawn := fun _ => inl msg |}.

(** A host on which only the encoding [known] is installed. *)
Definition host_with (known : string) (enc : Encoding) : Host :=
  {| get_encoding := fun name =>
       if String.eqb name known then inr enc
       else inl ("Unknown encoding " ++ name)%string;
     makedirs := fun _ => None;
     add_sink := fun _ => None |}.



Definition is_warning (e : effect) : bool :=
  match e with Log WARNING _ => true | _ => false end.

(** The encoder never needs more tokens for a concatenation than for its
    two parts (merges across the seam can only save tokens). *)
Definition subadditive (self : TikTokenizer.t) : Prop :=
  forall a b : string,
    chunk_count self (a ++ b)%string
    <= chunk_count self a + chunk_count self b.

End Scenarios.

(** ** Facts about strings and ranges *)

Section Strings.

Lemma substring_nil n m : substring n m EmptyString = EmptyString.
Proof. destruct n, m; reflexivity. Qed.

Lemma substring_length s : forall n m,
  String.length (substring n m s) = Nat.min m (String.length s - n).
Proof.
  induction s as [|c s IH]; intros n m.
  - rewrite substring_nil. simpl. now rewrite Nat.min_0_r.
  - destruct n as [|n]; destruct m as [|m]; simpl; try reflexivity.
    + rewrite IH. now rewrite Nat.sub_0_r.
    + now rewrite IH.
    + now rewrite IH.
Qed.

Lemma substring_adjacent s : forall n a b,
  (substring n a s ++ substring (n + a) b s)%string = substring n (a + b) s.
Proof.
  induction s as [|c s IH]; intros n a b.
  - now rewrite !substring_nil.
  - destruct n as [|n].
    + destruct a as [|a]; simpl; [reflexivity|].
      f_equal. apply (IH 0).
    + simpl. apply IH.
Qed.

Lemma substring_clip s : forall n m,
  substring n m s = substring n (Nat.min m (String.length s - n)) s.
Proof.
  induction s as [|c s IH]; intros n m.
  - now rewrite !substring_nil.
  - destruct n as [|n].
    + destruct m as [|m]; simpl; [reflexivity|].
      f_equal. rewrite (IH 0 m). now rewrite Nat.sub_0_r.
    + simpl. apply IH.
Qed.

Lemma substring_whole s : substring 0 (String.length s) s = s.
Proof.
  induction s as [|c s IH]; simpl; [reflexivity | now rewrite IH].
Qed.

Lemma substring_zero s : forall n, substring n 0 s = EmptyString.
Proof.
  induction s as [|c s IH]; intros [|n]; simpl; try reflexivity. apply IH.
Qed.

Lemma substring_past_end s n m :
  String.length s <= n -> substring n m s = EmptyString.
Proof.
  intros H. rewrite substring_clip.
  replace (String.length s - n) with 0 by lia.
  rewrite Nat.min_0_r. apply substring_zero.
Qed.

Lemma append_length (a b : string) :
  String.length (a ++ b) = String.length a + String.length b.
Proof. induction a as [|c a IH]; simpl; [reflexivity | now rewrite IH]. Qed.

Lemma append_nil_r (a : string) : (a ++ "")%string = a.
Proof. induction a as [|c a IH]; simpl; [reflexivity | now rewrite IH]. Qed.

Lemma append_assoc (a b c : string) :
  ((a ++ b) ++ c)%string = (a ++ (b ++ c))%string.
Proof. induction a as [|x a IH]; simpl; [reflexivity | now rewrite IH]. Qed.

Lemma substring_prefix_append (a b : string) :
  substring 0 (String.length a) (a ++ b) = a.
Proof. induction a as [|x a IH]; simpl; [now destruct b | now rewrite IH]. Qed.

End Strings.

Section Ranges.

Import Spec.

Lemma ceil_div_0 step : 0 < step -> ceil_div 0 step = 0.
Proof. intros H. unfold ceil_div. apply Nat.div_small. lia. Qed.

Lemma ceil_div_succ d step :
  0 < step -> 0 < d -> ceil_div d step = S (ceil_div (d - step) step).
Proof.
  intros Hs Hd. unfold ceil_div.
  destruct (le_lt_dec step d) as [Hge|Hlt].
  - replace (d + step - 1) with ((d - step + step - 1) + 1 * step) by lia.
    rewrite Nat.div_add by lia. lia.
  - replace (d - step) with 0 by lia.
    rewrite (Nat.div_small (0 + step - 1)) by lia.
    symmetry. apply (Nat.div_unique _ _ _ (d - 1)); lia.
Qed.

(** The ceiling is the least [n] with [a <= b * n]. *)
Lemma ceil_div_bounds a b :
  0 < b -> a <= b * ceil_div a b /\ b * ceil_div a b < a + b.
Proof.
  intros Hb. unfold ceil_div.
  pose proof (Nat.div_mod_eq (a + b - 1) b) as E.
  pose proof (Nat.mod_upper_bound (a + b - 1) b) as U.
  lia.
Qed.

Lemma range_from_spec step : 0 < step -> forall fuel i stop,
  stop - i <= fuel ->
  Py.range_from fuel i stop step
  = map (fun k => i + k * step) (seq 0 (ceil_div (stop - i) step)).
Proof.
  intros Hs. induction fuel as [|fuel IH]; intros i stop Hf.
  - replace (stop - i) with 0 by lia. now rewrite ceil_div_0.
  - simpl. destruct (Nat.ltb_spec i stop) as [Hlt|Hge].
    + rewrite (ceil_div_succ (stop - i)) by lia.
      rewrite IH by lia.
      replace (stop - i - step) with (stop - (i + step)) by lia.
      simpl. rewrite <- seq_shift, map_map. f_equal; [lia|].
      apply map_ext. intros k. simpl. lia.
    + replace (stop - i) with 0 by lia. now rewrite ceil_div_0.
Qed.

Lemma range_spec stop step : 0 < step ->
  Py.range 0 stop step = map (fun k => k * step) (seq 0 (ceil_div stop step)).
Proof.
  intros Hs. unfold Py.range. rewrite range_from_spec by lia.
  rewrite Nat.sub_0_r. apply map_ext. intros k. lia.
Qed.

End Ranges.

(** ** The chunks of a text *)

Section Chunks.

Import Spec TikTokenizer.

Lemma chunk_size_pos : 0 < chunk_size.
Proof. unfold chunk_size. lia. Qed.

Lemma chunks_spec (s : string) :
  chunks s
  = map (fun k => substring (k * chunk_size) chunk_size s)
        (seq 0 (ceil_div (String.length s) chunk_size)).
Proof.
  unfold chunks, Py.slice. rewrite range_spec by apply chunk_size_pos.
  now rewrite map_map.
Qed.

Lemma chunks_length (s : string) :
  List.length (chunks s) = ceil_div (String.length s) chunk_size.
Proof. now rewrite chunks_spec, length_map, length_seq. Qed.

Lemma join_slices (s : string) (width : nat) : forall n a,
  join_str (map (fun k => substring (k * width) width s) (seq a n))
  = substring (a * width) (n * width) s.
Proof.
  induction n as [|n IH]; intros a; simpl.
  - now rewrite substring_zero.
  - rewrite IH. replace (S a * width) with (a * width + width) by lia.
    apply substring_adjacent.
Qed.

Lemma chunks_join (s : string) : join_str (chunks s) = s.
Proof.
  rewrite chunks_spec, join_slices.
  destruct (ceil_div_bounds (String.length s) chunk_size chunk_size_pos)
    as [Hle _].
  rewrite Nat.mul_0_l, substring_clip, Nat.sub_0_r, Nat.min_r by lia.
  apply substring_whole.
Qed.

Lemma chunks_bounded (s : string) :
  Forall (fun c => String.length c <= chunk_size) (chunks s).
Proof.
  rewrite chunks_spec. apply Forall_forall. intros c Hc.
  apply in_map_iff in Hc. destruct Hc as [k [<- _]].
  rewrite substring_length. apply Nat.le_min_l.
Qed.

Lemma chunks_empty : chunks EmptyString = [].
Proof. reflexivity. Qed.


Lemma chunks_long (s : string) :
  chunk_size < String.length s ->
  exists c2 rest,
    chunks s = substring 0 chunk_size s :: c2 :: rest.
Proof.
  intros Hlen. rewrite chunks_spec.
  rewrite ceil_div_succ by (apply chunk_size_pos || lia).
  rewrite (ceil_div_succ (String.length s - chunk_size))
    by (apply chunk_size_pos || lia).
  simpl. eauto.
Qed.

(** C6.  The text of length L is cut into exactly ceil(L / 1000) chunks;
    chunk number k is the slice of at most 1000 characters that starts at
    character 1000 * k, so the chunks are contiguous, none is longer than
    1000 characters, and put end to end they give the text back. *)
Theorem chunks_partition (s : string) :
  List.length (chunks s) = ceil_div (String.length s) 1000
  /\ (String.length s <= 1000 * List.length (chunks s)
      /\ 1000 * List.length (chunks s) < String.length s + 1000)
  /\ chunks s
     = map (fun k => substring (k * 1000) 1000 s)
           (seq 0 (List.length (chunks s)))
  /\ Forall (fun c => String.length c <= 1000) (chunks s)
  /\ join_str (chunks s) = s.
Proof.
  change 1000 with chunk_size.
  pose proof (chunks_length s) as Hlen.
  repeat split.
  - exact Hlen.
  - rewrite Hlen. apply ceil_div_bounds, chunk_size_pos.
  - rewrite Hlen. apply ceil_div_bounds, chunk_size_pos.
  - rewrite Hlen. apply chunks_spec.
  - apply chunks_bounded.
  - apply chunks_join.
Qed.

End Chunks.

(** ** The thread pool *)

Section Pool.

Import Spec TikTokenizer.

Variable self : TikTokenizer.t.

Lemma fold_left_counts (cs : list string) : forall n,
  fold_left (fun n c => n + chunk_count self c) cs n
  = n + sum_chunk_counts self cs.
Proof.
  unfold sum_chunk_counts.
  induction cs as [|c cs IH]; intros n; simpl; [lia|].
  rewrite IH. lia.
Qed.

Lemma fold_left_finish_quiet (ws : list worker) :
  Forall (fun w => loaded w = None) ws ->
  forall n, fold_left (finish self) ws n = n + owed self ws.
Proof.
  unfold owed. induction 1 as [|w ws Hw _ IH]; intros n; simpl; [lia|].
  rewrite IH. unfold finish. rewrite Hw. lia.
Qed.

Lemma join_quiet (st : pool) : quiet st -> join self st = weight self st.
Proof.
  intros Hq. unfold join, weight.
  rewrite fold_left_counts, fold_left_finish_quiet by exact Hq. lia.
Qed.

Lemma owed_app (l1 l2 : list worker) : owed self (l1 ++ l2) = owed self l1 + owed self l2.
Proof. unfold owed. now rewrite map_app, list_sum_app. Qed.

Lemma owed_cons (w : worker) (ws : list worker) :
  owed self (w :: ws) = chunk_count self (chunk w) + owed self ws.
Proof. reflexivity. Qed.

Lemma nth_error_parts {A} (l : list A) (k : nat) (x : A) :
  nth_error l k = Some x ->
  l = firstn k l ++ x :: skipn (S k) l.
Proof.
  revert k. induction l as [|y l IH]; intros [|k] H; simpl in *;
    try discriminate.
  - now inversion H.
  - f_equal. now apply IH.
Qed.

Lemma nth_error_replace_nth {A} (l : list A) (k : nat) (x y : A) :
  nth_error l k = Some x -> nth_error (replace_nth k y l) k = Some y.
Proof.
  intros H. unfold replace_nth.
  assert (Hk : k < List.length l) by (apply nth_error_Some; congruence).
  rewrite nth_error_app2; rewrite length_firstn, Nat.min_l by lia;
    [|lia].
  now rewrite Nat.sub_diag.
Qed.

Lemma remove_replace_nth {A} (l : list A) (y : A) : forall k,
  k < List.length l -> remove_nth k (replace_nth k y l) = remove_nth k l.
Proof.
  unfold remove_nth, replace_nth.
  induction l as [|x l IH]; intros [|k] Hk; simpl in *; try lia.
  - reflexivity.
  - f_equal. apply IH. lia.
Qed.

(** An uninterrupted read-and-write by busy thread [k]. *)
Lemma step_run_quiet (st : pool) (k : nat) :
  quiet st ->
  let st' := step self (step self st (Fetch k)) (Put k) in
  quiet st' /\ weight self st' = weight self st.
Proof.
  intros Hq. simpl.
  destruct (nth_error (workers st) k) as [[c [v|]]|] eqn:Hk.
  - (* not quiet: excluded *)
    exfalso. apply nth_error_In in Hk.
    unfold quiet in Hq. rewrite Forall_forall in Hq.
    specialize (Hq _ Hk). discriminate.
  - assert (Hlt : k < List.length (workers st))
      by (apply nth_error_Some; congruence).
    simpl. rewrite (nth_error_replace_nth _ _ _ _ Hk). simpl.
    rewrite remove_replace_nth by exact Hlt.
    pose proof (nth_error_parts _ _ _ Hk) as Hsplit.
    split.
    + unfold quiet in *. simpl. unfold remove_nth.
      rewrite Hsplit in Hq. apply Forall_app in Hq. destruct Hq as [H1 H2].
      apply Forall_app. split; [exact H1 | now inversion H2].
    + unfold weight, remove_nth. cbn [num_tokens workers pending].
      rewrite Hsplit at 3.
      rewrite !owed_app, (owed_cons _ (skipn (S k) (workers st))).
      cbn [chunk]. lia.
  - simpl. rewrite Hk. split; [exact Hq | reflexivity].
Qed.

Lemma step_take_quiet (st : pool) :
  quiet st ->
  quiet (step self st Take) /\ weight self (step self st Take) = weight self st.
Proof.
  intros Hq. simpl. destruct (pending st) as [|c rest] eqn:Hp.
  - split; [exact Hq | reflexivity].
  - destruct (List.length (workers st) <? max_workers).
    + split.
      * unfold quiet. simpl. apply Forall_app. split; [exact Hq|].
        constructor; [reflexivity | constructor].
      * unfold weight. simpl. rewrite Hp, owed_app.
        unfold owed at 2, sum_chunk_counts. simpl. lia.
    + split; [exact Hq | reflexivity].
Qed.

(** Serialised schedules lose nothing. *)
Lemma serialised_weight (sched : list event) :
  serialised sched ->
  forall st, quiet st ->
    join self (fold_left (step self) sched st) = weight self st.
Proof.
  induction 1 as [|sched _ IH|k sched _ IH]; intros st Hq.
  - simpl. now apply join_quiet.
  - simpl fold_left. destruct (step_take_quiet st Hq) as [Hq' Hw].
    rewrite IH by exact Hq'. exact Hw.
  - simpl fold_left. destruct (step_run_quiet st k Hq) as [Hq' Hw].
    rewrite IH by exact Hq'. exact Hw.
Qed.

Lemma count_tokens_serialised (sched : list event) (s : string) :
  serialised sched ->
  count_tokens self sched s = sum_chunk_counts self (chunks s).
Proof.
  intros Hs. unfold count_tokens.
  rewrite serialised_weight by (exact Hs || constructor).
  reflexivity.
Qed.

(** *** Every schedule: updates can be lost, never invented *)

Lemma bounded_step (total : nat) (st : pool) (e : event) :
  bounded self total st -> bounded self total (step self st e).
Proof.
  intros [Hn Hw]. destruct e as [|k|k]; simpl.
  - destruct (pending st) as [|c rest] eqn:Hp; [now split|].
    destruct (List.length (workers st) <? max_workers); [|now split].
    assert (Hr : owed self (workers st ++ [{| chunk := c; loaded := None |}])
                 + sum_chunk_counts self rest = remaining self st).
    { unfold remaining. rewrite Hp, owed_app.
      unfold owed at 2, sum_chunk_counts. simpl. lia. }
    split; unfold remaining; cbn [num_tokens workers pending]; rewrite Hr.
    + exact Hn.
    + intros w' v Hin Hl. apply in_app_or in Hin.
      destruct Hin as [Hin|[<-|[]]]; [now apply (Hw w') | discriminate].
  - destruct (nth_error (workers st) k) as [[c [v|]]|] eqn:Hk;
      try now split.
    pose proof (nth_error_parts _ _ _ Hk) as Hsplit.
    assert (Hr : owed self (replace_nth k {| chunk := c;
                                        loaded := Some (num_tokens st) |}
                                   (workers st))
                 = owed self (workers st)).
    { rewrite Hsplit at 2. unfold replace_nth.
      rewrite !owed_app, !owed_cons. reflexivity. }
    split; unfold remaining; cbn [num_tokens workers pending]; rewrite Hr.
    + exact Hn.
    + intros w' v Hin Hl. unfold replace_nth in Hin.
      apply in_app_or in Hin. destruct Hin as [Hin|[<-|Hin]].
      * apply (Hw w'); [|exact Hl].
        rewrite Hsplit. apply in_or_app. now left.
      * simpl in Hl. injection Hl as <-. exact Hn.
      * apply (Hw w'); [|exact Hl].
        rewrite Hsplit. apply in_or_app. right. now right.
  - destruct (nth_error (workers st) k) as [[c [v|]]|] eqn:Hk;
      try now split.
    pose proof (nth_error_parts _ _ _ Hk) as Hsplit.
    assert (Hr : chunk_count self c + owed self (remove_nth k (workers st))
                 = owed self (workers st)).
    { rewrite Hsplit at 2. unfold remove_nth.
      rewrite !owed_app, owed_cons. cbn [chunk]. lia. }
    assert (Hv : v + remaining self st <= total).
    { apply (Hw {| chunk := c; loaded := Some v |}); [|reflexivity].
      now apply nth_error_In in Hk. }
    split; unfold remaining in *; cbn [num_tokens workers pending].
    + lia.
    + intros w' v' Hin Hl.
      assert (Hin' : In w' (workers st)).
      { rewrite Hsplit. unfold remove_nth in Hin.
        apply in_app_or in Hin. apply in_or_app.
        destruct Hin as [Hin|Hin]; [now left | right; now right]. }
      specialize (Hw w' v' Hin' Hl). lia.
Qed.

Lemma bounded_finish (total rest : nat) (ws : list worker) : forall n,
  n + owed self ws + rest <= total ->
  (forall w v, In w ws -> loaded w = Some v -> v + owed self ws + rest <= total) ->
  fold_left (finish self) ws n + rest <= total.
Proof.
  induction ws as [|w ws IH]; intros n Hn Hw; simpl.
  - unfold owed in Hn. simpl in Hn. lia.
  - rewrite owed_cons in Hn. apply IH.
    + unfold finish. destruct (loaded w) as [v|] eqn:Hl; [|lia].
      specialize (Hw w v (or_introl eq_refl) Hl).
      rewrite owed_cons in Hw. lia.
    + intros w' v' Hin Hl. specialize (Hw w' v' (or_intror Hin) Hl).
      rewrite owed_cons in Hw. lia.
Qed.

(** Under every schedule the count is at most the sum of the per-chunk
    counts. *)
Lemma count_tokens_le_sum (sched : list event) (s : string) :
  count_tokens self sched s <= sum_chunk_counts self (chunks s).
Proof.
  unfold count_tokens.
  assert (H : bounded self (sum_chunk_counts self (chunks s))
                      (submit_all (chunks s))).
  { split; [reflexivity|]. intros w v []. }
  revert H. generalize (submit_all (chunks s)).
  generalize (sum_chunk_counts self (chunks s)). intros total.
  induction sched as [|e sched IH]; intros st Hb; simpl.
  - destruct Hb as [Hn Hw]. unfold join, remaining in *.
    rewrite fold_left_counts. apply bounded_finish.
    + lia.
    + intros w v Hin Hl. specialize (Hw w v Hin Hl). lia.
  - apply IH. now apply bounded_step.
Qed.

End Pool.

(** ** The token count *)

Section Counting.

Import Spec TikTokenizer Fixtures.

Lemma step_idle (self : TikTokenizer.t) (e : event) :
  step self (submit_all []) e = submit_all [].
Proof. destruct e as [|k|k]; simpl; try reflexivity; now destruct k. Qed.

(** C7.  The empty string has no chunk, no thread is started, and the
    counter is returned as it was initialised: 0, under every schedule. *)
Theorem count_tokens_empty (self : TikTokenizer.t) (sched : list event) :
  count_tokens self sched EmptyString = 0.
Proof.
  unfold count_tokens. rewrite chunks_empty.
  induction sched as [|e sched IH]; simpl; [reflexivity|].
  rewrite step_idle. exact IH.
Qed.

Lemma additive_empty (self : TikTokenizer.t) :
  additive self -> chunk_count self EmptyString = 0.
Proof. intros H. specialize (H EmptyString EmptyString). simpl in H. lia. Qed.

Lemma additive_sum (self : TikTokenizer.t) (cs : list string) :
  additive self ->
  sum_chunk_counts self cs = chunk_count self (join_str cs).
Proof.
  intros H. unfold sum_chunk_counts.
  induction cs as [|c cs IH]; simpl.
  - symmetry. now apply additive_empty.
  - rewrite H, IH. reflexivity.
Qed.




(** The sum of the per-chunk counts does not depend on the order of the
    chunks. *)
Lemma sum_chunk_counts_permutation (self : TikTokenizer.t) cs cs' :
  Permutation cs cs' -> sum_chunk_counts self cs = sum_chunk_counts self cs'.
Proof.
  unfold sum_chunk_counts.
  induction 1 as [|c l l' _ IH|c d l|l l' l'' _ IH1 _ IH2]; simpl; lia.
Qed.

(** When the first two threads both read the counter before either writes,
    the count of the first chunk is lost, whatever the encoder. *)
Lemma overlapping_loses_first_chunk (self : TikTokenizer.t) (s : string) :
  chunk_size < String.length s ->
  count_tokens self overlapping s
  + chunk_count self (substring 0 chunk_size s)
  = sum_chunk_counts self (chunks s).
Proof.
  intros Hlen. destruct (chunks_long s Hlen) as [c2 [rest E]].
  unfold count_tokens. rewrite E.
  generalize (substring 0 chunk_size s). intros c1.
  unfold overlapping, join. simpl.
  rewrite fold_left_counts. unfold sum_chunk_counts. simpl. lia.
Qed.

End Counting.

(** ** Exactness of the count *)

Section Exactness.

Import Spec TikTokenizer Fixtures.

Lemma byte_count (s : string) :
  chunk_count byte_tokenizer s = String.length s.
Proof.
  unfold chunk_count, encode. simpl. unfold byte_encode.
  rewrite length_map.
  induction s as [|c s IH]; simpl; [reflexivity | now rewrite IH].
Qed.

Lemma byte_additive : additive byte_tokenizer.
Proof. intros a b. rewrite !byte_count. apply append_length. Qed.

(** C1, as amended.  With an encoder whose token count is additive over
    concatenation, every execution of [count_tokens] in which each thread
    writes the counter right after reading it returns exactly the number
    of tokens of the whole text. *)
Theorem count_tokens_additive_serialised
  (self : TikTokenizer.t) (sched : list event) (s : string) :
  additive self ->
  serialised sched ->
  count_tokens self sched s = List.length (encode self s).
Proof.
  intros Hadd Hser.
  rewrite count_tokens_serialised by exact Hser.
  rewrite additive_sum by exact Hadd.
  now rewrite chunks_join.
Qed.

(** The amended C1 on a text of two chunks, the second chunk counted
    first. *)
Lemma count_tokens_additive_serialised_witness :
  additive byte_tokenizer
  /\ serialised [Take; Take; Fetch 1; Put 1; Fetch 0; Put 0]
  /\ count_tokens byte_tokenizer
       [Take; Take; Fetch 1; Put 1; Fetch 0; Put 0] text_a
     = List.length (encode byte_tokenizer text_a).
Proof.
  split; [exact byte_additive|].
  split; [repeat constructor|].
  apply count_tokens_additive_serialised;
    [exact byte_additive | repeat constructor].
Defined.

(** C1 as stated fails: for a byte-pair encoder and a text whose pair "ab"
    lies across the boundary of the first chunk, the chunks are counted one
    after the other and still give 1001 tokens where the whole text has
    1000. *)
Lemma count_tokens_chunking_counterexample :
  count_tokens pair_tokenizer [] text_ab = 1001
  /\ List.length (encode pair_tokenizer text_ab) = 1000
  /\ count_tokens pair_tokenizer [] text_ab
     <> List.length (encode pair_tokenizer text_ab).
Proof.
  assert (H1 : count_tokens pair_tokenizer [] text_ab = 1001)
    by (vm_compute; reflexivity).
  assert (H2 : List.length (encode pair_tokenizer text_ab) = 1000)
    by (vm_compute; reflexivity).
  repeat split; try assumption.
  rewrite H1, H2. discriminate.
Qed.

(** C4 fails on the code.  On a text of two chunks, with both threads
    reading the counter before either writes it, [count_tokens] returns the
    count of the second chunk alone, not the sum of the two counts. *)
Theorem count_tokens_lost_update :
  chunks text_a = [replicate 1000 "a"; "a"]
  /\ sum_chunk_counts byte_tokenizer (chunks text_a) = 1001
  /\ count_tokens byte_tokenizer overlapping text_a = 1.
Proof. repeat split; vm_compute; reflexivity. Qed.

End Exactness.

(** ** Execution *)

Section Execution.

Import Spec TikTokenizer CodeExecutor Fixtures.

Variable w : World.
Variable self : CodeExecutor.t.
Variable sched : list event.

(** [execute] when the code formats and the process exits with status 0. *)
Lemma execute_success (code formatted : string) (p : CompletedProcess) :
  black_format_str w code = inr formatted ->
  spawn w [language self; "-c"; formatted] = inr p ->
  returncode p = 0%Z ->
  snd (execute w self sched code)
  = Return
      (if Py.truthy (max_output_length self)
          && (Z.of_nat (count_tokens (tokenizer self) sched (stdout p))
              >? max_output_length self)%Z
       then (Py.slice_to (stdout p) (max_output_length self)
             ++ truncation_marker)%string
       else stdout p).
Proof.
  intros Hf Hs Hrc.
  unfold execute, format_code, subprocess_run, try_except, bind, emit, ret.
  rewrite Hf. simpl. rewrite Hs. simpl. rewrite Hrc. simpl.
  destruct (Py.truthy (max_output_length self)
            && (Z.of_nat (count_tokens (tokenizer self) sched (stdout p))
                >? max_output_length self)%Z); reflexivity.
Qed.

Lemma slice_to_positive (s : string) (stop : Z) :
  (0 <= stop)%Z -> Py.slice_to s stop = substring 0 (Z.to_nat stop) s.
Proof.
  intros H. unfold Py.slice_to, Py.stop_index.
  destruct (Z.ltb_spec stop 0) as [Hneg|_]; [lia|].
  rewrite (substring_clip s 0 (Z.to_nat stop)). now rewrite Nat.sub_0_r.
Qed.

Lemma truncated_length (s : string) (n : nat) :
  String.length (substring 0 n s ++ truncation_marker)
  = Nat.min n (String.length s) + 3.
Proof.
  rewrite append_length, substring_length, Nat.sub_0_r. reflexivity.
Qed.

(** C9.  With [max_output_length = 0] the captured output is returned as it
    is, whatever its token count and whatever the schedule of the count; no
    warning is logged and no marker is appended. *)
Theorem execute_unlimited (code formatted : string) (p : CompletedProcess) :
  max_output_length self = 0%Z ->
  black_format_str w code = inr formatted ->
  spawn w [language self; "-c"; formatted] = inr p ->
  returncode p = 0%Z ->
  execute w self sched code
  = ([FormatStr code;
      Log INFO ("Executing code:" ++ Py.newline ++ formatted);
      SubprocessRun [language self; "-c"; formatted];
      Log INFO ("Code output:" ++ Py.newline ++ stdout p);
      PrintLine
        (Py.str_of_nat (count_tokens (tokenizer self) sched (stdout p)))],
     Return (stdout p)).
Proof.
  intros Hmax Hf Hs Hrc.
  unfold execute, format_code, subprocess_run, try_except, bind, emit, ret.
  rewrite Hf. simpl. rewrite Hs. simpl. rewrite Hrc. simpl.
  rewrite Hmax. reflexivity.
Qed.

(** C3.  When the interpreter process exits with a non-zero status,
    [execute] raises [RuntimeError]; its message is "Error executing code: "
    followed by the captured standard error, so it contains that text.  No
    output is returned, and the tokens are not counted. *)
Theorem execute_nonzero_exit (code formatted : string) (p : CompletedProcess) :
  black_format_str w code = inr formatted ->
  spawn w [language self; "-c"; formatted] = inr p ->
  returncode p <> 0%Z ->
  execute w self sched code
  = ([FormatStr code;
      Log INFO ("Executing code:" ++ Py.newline ++ formatted);
      SubprocessRun [language self; "-c"; formatted];
      Log ERROR ("Error executing code: " ++ stderr p)],
     Raise (RuntimeError ("Error executing code: " ++ stderr p)))
  /\ Py.contains (stderr p) ("Error executing code: " ++ stderr p).
Proof.
  intros Hf Hs Hrc. split.
  - unfold execute, format_code, subprocess_run, try_except, bind, emit, ret.
    rewrite Hf. simpl. rewrite Hs. simpl.
    destruct (Z.eqb_spec (returncode p) 0) as [E|_]; [contradiction|].
    reflexivity.
  - exists "Error executing code: ", EmptyString.
    now rewrite append_nil_r.
Qed.

(** C8.  When black rejects the code, [format_code] raises [ValueError]
    with the formatter's message, and so does [execute]: the formatter is
    called once, the interpreter is never started, and nothing is
    returned. *)
Theorem format_failure (code e : string) :
  black_format_str w code = inl e ->
  format_code w code
  = ([FormatStr code; Log ERROR ("Error formatting code: " ++ e)],
     Raise (ValueError ("Error formatting code: " ++ e)))
  /\ execute w self sched code
     = ([FormatStr code; Log ERROR ("Error formatting code: " ++ e)],
        Raise (ValueError ("Error formatting code: " ++ e))).
Proof.
  intros Hf.
  unfold execute, format_code, try_except, bind, emit, raise.
  rewrite Hf. simpl. split; reflexivity.
Qed.

(** C2, as amended.  For a positive [max_output_length]: when the token
    count of the captured output exceeds it, [execute] returns the first
    [max_output_length] characters of the output followed by the marker
    "...", a string of at most [max_output_length + 3] characters.  For
    every [max_output_length]: when the token count does not exceed it, the
    output is returned unchanged. *)
Theorem execute_truncation_policy
  (code formatted : string) (p : CompletedProcess) :
  black_format_str w code = inr formatted ->
  spawn w [language self; "-c"; formatted] = inr p ->
  returncode p = 0%Z ->
  ((0 < max_output_length self)%Z ->
   (max_output_length self
    < Z.of_nat (count_tokens (tokenizer self) sched (stdout p)))%Z ->
   exists r,
     snd (execute w self sched code) = Return r
     /\ r = (substring 0 (Z.to_nat (max_output_length self)) (stdout p)
             ++ "...")%string
     /\ Py.endswith r "..."
     /\ (Z.of_nat (String.length r) <= max_output_length self + 3)%Z)
  /\ ((Z.of_nat (count_tokens (tokenizer self) sched (stdout p))
       <= max_output_length self)%Z ->
      snd (execute w self sched code) = Return (stdout p)).
Proof.
  intros Hf Hs Hrc. rewrite (execute_success _ _ _ Hf Hs Hrc). split.
  - intros Hpos Hgt.
    replace (Py.truthy (max_output_length self)) with true
      by (unfold Py.truthy; destruct (Z.eqb_spec (max_output_length self) 0);
          [lia | reflexivity]).
    replace (_ >? _)%Z with true by (symmetry; apply Z.gtb_lt; lia).
    simpl. rewrite slice_to_positive by lia.
    eexists. split; [reflexivity|]. split; [reflexivity|]. split.
    + eexists. reflexivity.
    + fold truncation_marker. rewrite truncated_length. lia.
  - intros Hle.
    replace (_ >? _)%Z with false
      by (symmetry; rewrite Z.gtb_ltb; apply Z.ltb_ge; lia).
    now rewrite andb_false_r.
Qed.

(** C10, as amended.  Whenever truncation occurs with a positive
    [max_output_length], that one value is both the token threshold and the
    number of characters kept: the result is exactly the first
    [max_output_length] characters of the output followed by "...", and it
    has [max_output_length + 3] characters whenever the output has at least
    [max_output_length] characters. *)
Theorem execute_truncation_length
  (code formatted : string) (p : CompletedProcess) :
  black_format_str w code = inr formatted ->
  spawn w [language self; "-c"; formatted] = inr p ->
  returncode p = 0%Z ->
  (0 < max_output_length self)%Z ->
  (max_output_length self
   < Z.of_nat (count_tokens (tokenizer self) sched (stdout p)))%Z ->
  snd (execute w self sched code)
  = Return (substring 0 (Z.to_nat (max_output_length self)) (stdout p)
            ++ "...")%string
  /\ ((max_output_length self <= Z.of_nat (String.length (stdout p)))%Z ->
      Z.of_nat
        (String.length
           (substring 0 (Z.to_nat (max_output_length self)) (stdout p)
            ++ "..."))
      = (max_output_length self + 3)%Z).
Proof.
  intros Hf Hs Hrc Hpos Hgt. rewrite (execute_success _ _ _ Hf Hs Hrc).
  replace (Py.truthy (max_output_length self)) with true
    by (unfold Py.truthy; destruct (Z.eqb_spec (max_output_length self) 0);
        [lia | reflexivity]).
  replace (_ >? _)%Z with true by (symmetry; apply Z.gtb_lt; lia).
  simpl. rewrite slice_to_positive by lia. split; [reflexivity|].
  intros Hlen. fold truncation_marker. rewrite truncated_length. lia.
Qed.

End Execution.

(** ** Runs of the executor on concrete programs *)

Section Runs.

Import Spec TikTokenizer CodeExecutor Fixtures.

(** C2 as amended, on the program that prints "a b c d e f g h" with
    [max_output_length = 5]: 15 tokens, so the first 5 characters and the
    marker come back; with [max_output_length = 1000] the output comes back
    as it is. *)
Lemma execute_truncation_policy_witness :
  ((0 < 5)%Z
   /\ (5 < Z.of_nat (count_tokens byte_tokenizer [] "a b c d e f g h"))%Z
   /\ snd (execute (stub_world 0 "a b c d e f g h" "") (executor 5) []
                   "print('a b c d e f g h', end='')")
      = Return "a b c...")
  /\ ((Z.of_nat (count_tokens byte_tokenizer [] "hello") <= 1000)%Z
      /\ snd (execute (stub_world 0 "hello" "") (executor 1000) []
                      "print('hello', end='')")
         = Return "hello").
Proof.
  split.
  - split; [reflexivity|]. split; [reflexivity|].
    destruct (execute_truncation_policy
                (stub_world 0 "a b c d e f g h" "") (executor 5) []
                "print('a b c d e f g h', end='')"
                "print('a b c d e f g h', end='')"
                (stub_process "print('a b c d e f g h', end='')" 0
                              "a b c d e f g h" "")
                eq_refl eq_refl eq_refl) as [Hcut _].
    destruct (Hcut eq_refl eq_refl) as [r [Hr [Er _]]].
    rewrite Hr, Er. reflexivity.
  - split; [vm_compute; discriminate|].
    destruct (execute_truncation_policy
                (stub_world 0 "hello" "") (executor 1000) []
                "print('hello', end='')" "print('hello', end='')"
                (stub_process "print('hello', end='')" 0 "hello" "")
                eq_refl eq_refl eq_refl) as [_ Hkeep].
    apply Hkeep. vm_compute. discriminate.
Defined.

(** C2 as stated fails for a negative [max_output_length]: the threshold is
    set and exceeded, but the slice drops the last character instead of
    keeping at most [max_output_length] characters, and the result is longer
    than [max_output_length + 3]. *)
Lemma execute_truncation_policy_counterexample :
  Py.truthy (max_output_length (executor (-1))) = true
  /\ (max_output_length (executor (-1))
      < Z.of_nat (count_tokens byte_tokenizer [] "hello"))%Z
  /\ snd (execute (stub_world 0 "hello" "") (executor (-1)) []
                  "print('hello', end='')")
     = Return "hell..."
  /\ ~ (Z.of_nat (String.length "hell...")
        <= max_output_length (executor (-1)) + 3)%Z.
Proof.
  split; [reflexivity|]. split; [reflexivity|]. split; [reflexivity|].
  vm_compute. intros H. apply H. reflexivity.
Qed.

(** C10 as amended, on the same program with [max_output_length = 5]. *)
Lemma execute_truncation_length_witness :
  (0 < 5)%Z
  /\ (5 < Z.of_nat (count_tokens byte_tokenizer [] "a b c d e f g h"))%Z
  /\ (5 <= Z.of_nat (String.length "a b c d e f g h"))%Z
  /\ snd (execute (stub_world 0 "a b c d e f g h" "") (executor 5) []
                  "print('a b c d e f g h', end='')")
     = Return "a b c..."
  /\ Z.of_nat (String.length "a b c...") = (5 + 3)%Z.
Proof.
  split; [reflexivity|]. split; [reflexivity|].
  split; [vm_compute; discriminate|].
  destruct (execute_truncation_length
              (stub_world 0 "a b c d e f g h" "") (executor 5) []
              "print('a b c d e f g h', end='')"
              "print('a b c d e f g h', end='')"
              (stub_process "print('a b c d e f g h', end='')" 0
                            "a b c d e f g h" "")
              eq_refl eq_refl eq_refl eq_refl eq_refl) as [Hr Hlen].
  split; [exact Hr|].
  apply Hlen. vm_compute. discriminate.
Defined.

(** C10 as stated fails for a negative [max_output_length]: truncation
    occurs, the output has at least [max_output_length] characters, and the
    result keeps all but the last two characters: 6 characters, not
    [max_output_length + 3 = 1]. *)
Lemma execute_truncation_length_counterexample :
  Py.truthy (max_output_length (executor (-2))) = true
  /\ (max_output_length (executor (-2))
      < Z.of_nat (count_tokens byte_tokenizer [] "hello"))%Z
  /\ (max_output_length (executor (-2))
      <= Z.of_nat (String.length "hello"))%Z
  /\ snd (execute (stub_world 0 "hello" "") (executor (-2)) []
                  "print('hello', end='')")
     = Return "hel..."
  /\ Z.of_nat (String.length "hel...")
     <> (max_output_length (executor (-2)) + 3)%Z.
Proof.
  split; [reflexivity|]. split; [reflexivity|].
  split; [vm_compute; discriminate|].
  split; [reflexivity|]. vm_compute. discriminate.
Qed.

(** C9 on a program that prints "a b c d e f g h", with
    [max_output_length = 0]. *)
Lemma execute_unlimited_witness :
  max_output_length (executor 0) = 0%Z
  /\ snd (execute (stub_world 0 "a b c d e f g h" "") (executor 0) overlapping
                  "print('a b c d e f g h', end='')")
     = Return "a b c d e f g h".
Proof.
  split; [reflexivity|].
  rewrite (execute_unlimited
             (stub_world 0 "a b c d e f g h" "") (executor 0) overlapping
             "print('a b c d e f g h', end='')"
             "print('a b c d e f g h', end='')"
             (stub_process "print('a b c d e f g h', end='')" 0
                           "a b c d e f g h" "")
             eq_refl eq_refl eq_refl eq_refl).
  reflexivity.
Defined.

(** C3 on a program that writes "boom" to standard error and exits with
    status 1. *)
Lemma execute_nonzero_exit_witness :
  returncode (stub_process "raise SystemExit('boom')" 1 "" "boom") <> 0%Z
  /\ snd (execute (stub_world 1 "" "boom") (executor 1000) []
                  "raise SystemExit('boom')")
     = Raise (RuntimeError "Error executing code: boom")
  /\ Py.contains "boom" "Error executing code: boom".
Proof.
  assert (Hrc : returncode (stub_process "raise SystemExit('boom')" 1 "" "boom")
                <> 0%Z) by discriminate.
  split; [exact Hrc|].
  destruct (execute_nonzero_exit
              (stub_world 1 "" "boom") (executor 1000) []
              "raise SystemExit('boom')" "raise SystemExit('boom')"
              (stub_process "raise SystemExit('boom')" 1 "" "boom")
              eq_refl eq_refl Hrc) as [Hrun Hmsg].
  split; [rewrite Hrun; reflexivity | exact Hmsg].
Defined.

(** C8 on code that black cannot parse. *)
Lemma format_failure_witness :
  black_format_str (unparsable_world "Cannot parse: 1:4: def (") "def ("
  = inl "Cannot parse: 1:4: def ("
  /\ snd (execute (unparsable_world "Cannot parse: 1:4: def (")
                  (executor 1000) [] "def (")
     = Raise (ValueError "Error formatting code: Cannot parse: 1:4: def (").
Proof.
  split; [reflexivity|].
  destruct (format_failure
              (unparsable_world "Cannot parse: 1:4: def (") (executor 1000) []
              "def (" "Cannot parse: 1:4: def (" eq_refl) as [_ Hrun].
  rewrite Hrun. reflexivity.
Defined.

End Runs.

(** ** Further properties of the chunks and of the count *)

Section MoreChunks.

Import Spec TikTokenizer Fixtures Scenarios.

Lemma removelast_map_seq {A} (f : nat -> A) (n : nat) :
  removelast (map f (seq 0 n)) = map f (seq 0 (n - 1)).
Proof.
  destruct n as [|n]; [reflexivity|].
  rewrite seq_S, map_app. simpl map at 2.
  rewrite removelast_last. now rewrite Nat.sub_succ, Nat.sub_0_r.
Qed.

(** X1.  No chunk is empty, and every chunk but the last has exactly 1000
    characters: only the last chunk can be shorter. *)
Theorem chunks_full_but_last (s : string) :
  Forall (fun c => 0 < String.length c) (chunks s)
  /\ Forall (fun c => String.length c = 1000) (removelast (chunks s)).
Proof.
  change 1000 with chunk_size.
  rewrite chunks_spec.
  pose proof chunk_size_pos as Hpos.
  destruct (ceil_div_bounds (String.length s) chunk_size Hpos) as [_ Hub].
  remember (ceil_div (String.length s) chunk_size) as n eqn:Hn. clear Hn.
  split.
  - apply Forall_forall. intros c Hc.
    apply in_map_iff in Hc. destruct Hc as [k [<- Hk]].
    apply in_seq in Hk. rewrite substring_length. nia.
  - rewrite removelast_map_seq. apply Forall_forall. intros c Hc.
    apply in_map_iff in Hc. destruct Hc as [k [<- Hk]].
    apply in_seq in Hk. rewrite substring_length. nia.
Qed.

End MoreChunks.

Section MoreCounting.

Import Spec TikTokenizer Fixtures Scenarios.

Variable self : TikTokenizer.t.

(** X2.  Whatever the schedule, [count_tokens] returns at most the sum of
    the per-chunk counts: interleaved updates can lose counts but never add
    any.  With an additive encoder the result is therefore never above the
    number of tokens of the text. *)
Theorem count_tokens_never_overcounts (sched : list event) (s : string) :
  count_tokens self sched s <= sum_chunk_counts self (chunks s)
  /\ (additive self ->
      count_tokens self sched s <= List.length (encode self s)).
Proof.
  pose proof (count_tokens_le_sum self sched s) as H.
  split; [exact H|].
  intros Hadd. rewrite additive_sum, chunks_join in H by exact Hadd.
  exact H.
Qed.


(** X4.  When no two counter updates overlap, the result is the sum of the
    per-chunk counts, for any encoder and whatever the order in which the
    busy threads take their turn: two such executions agree. *)
Theorem count_tokens_serialised_agree (sched sched' : list event) (s : string) :
  serialised sched ->
  serialised sched' ->
  count_tokens self sched s = sum_chunk_counts self (chunks s)
  /\ count_tokens self sched s = count_tokens self sched' s.
Proof.
  intros H H'. unfold count_tokens.
  rewrite !serialised_weight by (assumption || constructor).
  split; reflexivity.
Qed.

(** X5.  For every text of more than 1000 characters there is an execution
    that loses the whole count of the first chunk: when the first two
    threads both read the counter before either writes, the result is the
    sum of the per-chunk counts minus the count of the first 1000
    characters. *)
Theorem count_tokens_loses_first_chunk (s : string) :
  1000 < String.length s ->
  count_tokens self overlapping s
  = sum_chunk_counts self (chunks s)
    - List.length (encode self (substring 0 1000 s)).
Proof.
  intros Hlen.
  pose proof (overlapping_loses_first_chunk self s Hlen) as H.
  unfold chunk_count, chunk_size in H. lia.
Qed.

(** X6.  With an encoder that never needs more tokens for a concatenation
    than for its parts, and none for the empty string, cutting the text into
    chunks can only raise the count: without overlapping updates
    [count_tokens] returns at least [len(encode(text))]. *)
Theorem count_tokens_subadditive (sched : list event) (s : string) :
  subadditive self ->
  chunk_count self EmptyString = 0 ->
  serialised sched ->
  List.length (encode self s) <= count_tokens self sched s.
Proof.
  intros Hsub Hnil Hser.
  unfold count_tokens. rewrite serialised_weight by (assumption || constructor).
  change (weight self (submit_all (chunks s)))
    with (sum_chunk_counts self (chunks s)).
  rewrite <- (chunks_join s) at 1.
  generalize (chunks s). intros cs. unfold sum_chunk_counts.
  induction cs as [|c cs IH]; simpl.
  - fold (chunk_count self EmptyString). lia.
  - fold (chunk_count self (c ++ join_str cs)).
    specialize (Hsub c (join_str cs)). unfold chunk_count in *. lia.
Qed.

End MoreCounting.

Section PoolCapacity.

Import Spec TikTokenizer Fixtures Scenarios.

Variable self : TikTokenizer.t.





End PoolCapacity.

Section WorstCase.

Import Spec TikTokenizer Fixtures Scenarios.

Variable self : TikTokenizer.t.

Let fresh (c : string) : worker := {| chunk := c; loaded := None |}.
Let held (v : nat) (c : string) : worker := {| chunk := c; loaded := Some v |}.

Lemma take_all (n0 : nat) (rest : list string) : forall cs ws,
  List.length ws + List.length cs <= max_workers ->
  fold_left (step self) (repeat Take (List.length cs))
            {| num_tokens := n0; pending := cs ++ rest; workers := ws |}
  = {| num_tokens := n0; pending := rest; workers := ws ++ map fresh cs |}.
Proof.
  induction cs as [|c cs IH]; intros ws Hcap.
  - simpl. now rewrite app_nil_r.
  - cbn [List.length repeat fold_left]. unfold step at 2.
    cbn [pending workers num_tokens app].
    simpl List.length in Hcap.
    destruct (Nat.ltb_spec (List.length ws) max_workers) as [_|Hge]; [|lia].
    rewrite IH by (rewrite length_app; simpl; lia).
    now rewrite <- app_assoc.
Qed.

Lemma replace_nth_middle {A} (l1 l2 : list A) (x y : A) :
  replace_nth (List.length l1) x (l1 ++ y :: l2) = l1 ++ x :: l2.
Proof.
  unfold replace_nth.
  induction l1 as [|z l1 IH]; simpl; [reflexivity|].
  f_equal. exact IH.
Qed.

Lemma fetch_all (n0 : nat) (pend : list string) : forall cs done,
  fold_left (step self) (map Fetch (seq (List.length done) (List.length cs)))
            {| num_tokens := n0; pending := pend;
               workers := done ++ map fresh cs |}
  = {| num_tokens := n0; pending := pend;
       workers := done ++ map (held n0) cs |}.
Proof.
  induction cs as [|c cs IH]; intros done; [reflexivity|].
  cbn [List.length seq map fold_left]. unfold step at 2.
  cbn [pending workers num_tokens].
  rewrite nth_error_app2, Nat.sub_diag by lia.
  cbn [nth_error fresh chunk loaded].
  rewrite replace_nth_middle.
  specialize (IH (done ++ [held n0 c])).
  rewrite length_app, Nat.add_1_r, <- !app_assoc in IH.
  exact IH.
Qed.

Lemma put_all (v : nat) (pend : list string) : forall cs n0,
  fold_left (step self) (repeat (Put 0) (List.length cs))
            {| num_tokens := n0; pending := pend;
               workers := map (held v) cs |}
  = {| num_tokens := match cs with
                     | [] => n0
                     | _ => v + chunk_count self (last cs EmptyString)
                     end;
       pending := pend; workers := [] |}.
Proof.
  induction cs as [|c cs IH]; intros n0; [reflexivity|].
  cbn [List.length repeat map fold_left]. unfold step at 2.
  cbn [pending workers num_tokens nth_error held chunk loaded].
  unfold remove_nth. cbn [firstn skipn app].
  rewrite IH. destruct cs; reflexivity.
Qed.

(** X8.  For a text of at most 10 chunks (10000 characters) there is an
    execution in which all but one count are lost: when every thread reads
    the counter before any of them writes, [count_tokens] returns the count
    of the last chunk alone. *)
Theorem count_tokens_worst_case (s : string) :
  s <> EmptyString ->
  String.length s <= 10 * 1000 ->
  count_tokens self (all_overlapping (List.length (chunks s))) s
  = List.length (encode self (last (chunks s) EmptyString)).
Proof.
  intros Hne Hlen.
  assert (Hpos : 0 < String.length s)
    by (destruct s; simpl; [congruence | lia]).
  pose proof (chunks_length s) as Hn.
  destruct (ceil_div_bounds (String.length s) chunk_size chunk_size_pos)
    as [Hlo Hhi].
  rewrite <- Hn in Hlo, Hhi. unfold chunk_size in Hlo, Hhi. clear Hn.
  unfold count_tokens, all_overlapping, submit_all.
  remember (chunks s) as cs eqn:Hcs. clear Hcs.
  rewrite !fold_left_app.
  rewrite <- (app_nil_r cs) at 4.
  rewrite take_all by (unfold max_workers; simpl; lia).
  pose proof (fetch_all 0 [] cs []) as Hfetch.
  cbn [List.length app] in Hfetch. cbn [app]. rewrite Hfetch.
  rewrite put_all.
  destruct cs as [|c cs]; [simpl in Hlo; lia|].
  reflexivity.
Qed.

End WorstCase.

(** ** Further properties of [execute] *)

Section MoreExecution.

Import Spec TikTokenizer CodeExecutor Fixtures Scenarios.

Variable w : World.
Variable self : CodeExecutor.t.

(** The three effects every run starts with once the code is formatted. *)
Let started (code formatted : string) : list effect :=
  [FormatStr code;
   Log INFO ("Executing code:" ++ Py.newline ++ formatted);
   SubprocessRun [language self; "-c"; formatted]].

(** [execute], by cases on what the formatter and the process do. *)
Lemma execute_cases (sched : list event) (code : string) :
  execute w self sched code
  = match black_format_str w code with
    | inl e =>
        ([FormatStr code; Log ERROR ("Error formatting code: " ++ e)],
         Raise (ValueError ("Error formatting code: " ++ e)))
    | inr formatted =>
        match spawn w [language self; "-c"; formatted] with
        | inl msg => (started code formatted, Raise (OSError msg))
        | inr p =>
            if (returncode p =? 0)%Z then
              let n := count_tokens (tokenizer self) sched (stdout p) in
              let cut := Py.truthy (max_output_length self)
                         && (Z.of_nat n >? max_output_length self)%Z in
              (started code formatted
               ++ [Log INFO ("Code output:" ++ Py.newline ++ stdout p);
                   PrintLine (Py.str_of_nat n)]
               ++ (if cut
                   then [Log WARNING
                           ("Output length exceeds "
                            ++ Py.str_of_Z (max_output_length self)
                            ++ " characters. Truncating output.")]
                   else []),
               Return (if cut
                       then (Py.slice_to (stdout p) (max_output_length self)
                             ++ truncation_marker)%string
                       else stdout p))
            else
              (started code formatted
               ++ [Log ERROR ("Error executing code: " ++ stderr p)],
               Raise (RuntimeError ("Error executing code: " ++ stderr p)))
        end
    end.
Proof.
  unfold execute, format_code, subprocess_run, try_except, bind, emit, ret,
    raise, started.
  destruct (black_format_str w code) as [e|formatted]; [reflexivity|].
  simpl. destruct (spawn w [language self; "-c"; formatted]) as [msg|p];
    [reflexivity|].
  simpl. destruct (returncode p =? 0)%Z; [|reflexivity].
  simpl.
  destruct (Py.truthy (max_output_length self)
            && (Z.of_nat (count_tokens (tokenizer self) sched (stdout p))
                >? max_output_length self)%Z); reflexivity.
Qed.



(** X11.  When the interpreter cannot be started, the operating system's
    error reaches the caller unchanged: it is not wrapped in
    [RuntimeError], no error is logged, and nothing is counted. *)
Theorem execute_interpreter_not_started
  (sched : list event) (code formatted msg : string) :
  black_format_str w code = inr formatted ->
  spawn w [language self; "-c"; formatted] = inl msg ->
  execute w self sched code
  = ([FormatStr code;
      Log INFO ("Executing code:" ++ Py.newline ++ formatted);
      SubprocessRun [language self; "-c"; formatted]],
     Raise (OSError msg)).
Proof. intros Hf Hs. rewrite execute_cases, Hf, Hs. reflexivity. Qed.

Lemma stop_index_le (len : nat) (stop : Z) : Py.stop_index len stop <= len.
Proof.
  unfold Py.stop_index. destruct (Z.ltb_spec stop 0); lia.
Qed.

(** X12.  Whatever [max_output_length] is, a returned string is the
    captured output itself or a prefix of it followed by "...": [execute]
    never returns text the process did not print, and never more than three
    characters beyond the output. *)
Theorem execute_returns_prefix
  (sched : list event) (code r : string) :
  snd (execute w self sched code) = Return r ->
  exists formatted p k,
    black_format_str w code = inr formatted
    /\ spawn w [language self; "-c"; formatted] = inr p
    /\ k <= String.length (stdout p)
    /\ (r = stdout p \/ r = (substring 0 k (stdout p) ++ "...")%string)
    /\ String.length r <= String.length (stdout p) + 3.
Proof.
  rewrite execute_cases.
  destruct (black_format_str w code) as [msg|formatted]; [discriminate|].
  destruct (spawn w [language self; "-c"; formatted]) as [msg|p] eqn:Hs;
    [discriminate|].
  destruct (returncode p =? 0)%Z; [|discriminate].
  cbn [snd].
  pose proof (stop_index_le (String.length (stdout p))
                            (max_output_length self)) as Hk.
  destruct (Py.truthy (max_output_length self) && _); intros [= <-];
    exists formatted, p,
           (Py.stop_index (String.length (stdout p)) (max_output_length self)).
  - repeat split; try assumption.
    + right. reflexivity.
    + unfold Py.slice_to. rewrite truncated_length. lia.
  - repeat split; try assumption; [now left | lia].
Qed.

(** X13.  A negative [max_output_length] cuts every output, whatever its
    token count: the last [-max_output_length] characters are dropped (all
    of them when the output is shorter) and "..." is appended. *)
Theorem execute_negative_limit
  (sched : list event) (code formatted : string) (p : CompletedProcess) :
  black_format_str w code = inr formatted ->
  spawn w [language self; "-c"; formatted] = inr p ->
  returncode p = 0%Z ->
  (max_output_length self < 0)%Z ->
  snd (execute w self sched code)
  = Return (substring 0 (String.length (stdout p)
                         - Z.to_nat (- max_output_length self)) (stdout p)
            ++ "...")%string.
Proof.
  intros Hf Hs Hrc Hneg. rewrite (execute_success _ _ _ _ _ _ Hf Hs Hrc).
  replace (Py.truthy (max_output_length self)) with true
    by (unfold Py.truthy; destruct (Z.eqb_spec (max_output_length self) 0);
        [lia | reflexivity]).
  replace (_ >? _)%Z with true by (symmetry; apply Z.gtb_lt; lia).
  simpl. unfold Py.slice_to, Py.stop_index.
  destruct (Z.ltb_spec (max_output_length self) 0) as [_|Hge]; [|lia].
  do 3 f_equal. lia.
Qed.

(** X14.  The cut is measured in characters but decided in tokens: when
    the output has at most [max_output_length] characters and still more
    than [max_output_length] tokens, nothing is removed and the result is
    the whole output followed by "...", longer than the output. *)
Theorem execute_marker_without_cut
  (sched : list event) (code formatted : string) (p : CompletedProcess) :
  black_format_str w code = inr formatted ->
  spawn w [language self; "-c"; formatted] = inr p ->
  returncode p = 0%Z ->
  (Z.of_nat (String.length (stdout p)) <= max_output_length self)%Z ->
  (max_output_length self
   < Z.of_nat (count_tokens (tokenizer self) sched (stdout p)))%Z ->
  snd (execute w self sched code) = Return (stdout p ++ "...")%string.
Proof.
  intros Hf Hs Hrc Hlen Hgt. rewrite (execute_success _ _ _ _ _ _ Hf Hs Hrc).
  assert (Hpos : (0 < max_output_length self)%Z).
  { destruct (Z.eq_dec (max_output_length self) 0) as [E|NE]; [|lia].
    exfalso. rewrite E in Hlen, Hgt.
    destruct (stdout p) as [|c out]; [|simpl in Hlen; lia].
    pose proof (count_tokens_le_sum (tokenizer self) sched EmptyString) as Hle.
    rewrite chunks_empty in Hle. unfold sum_chunk_counts in Hle.
    simpl in Hle. lia. }
  replace (Py.truthy (max_output_length self)) with true
    by (unfold Py.truthy; destruct (Z.eqb_spec (max_output_length self) 0);
        [lia | reflexivity]).
  replace (_ >? _)%Z with true by (symmetry; apply Z.gtb_lt; lia).
  simpl. rewrite slice_to_positive by lia.
  rewrite substring_clip, Nat.sub_0_r, Nat.min_r by lia.
  now rewrite substring_whole.
Qed.

(** X15.  Whether an output of more than 1000 characters is cut can depend
    on the thread schedule of the count: when [max_output_length] lies
    between the sum of the per-chunk counts less the count of the first
    chunk and that sum, the same run returns the output unchanged if the
    first two counter updates overlap and cut if the chunks are counted one
    after the other. *)
Theorem execute_cut_depends_on_schedule
  (code formatted : string) (p : CompletedProcess) :
  black_format_str w code = inr formatted ->
  spawn w [language self; "-c"; formatted] = inr p ->
  returncode p = 0%Z ->
  1000 < String.length (stdout p) ->
  (0 < max_output_length self)%Z ->
  (Z.of_nat (sum_chunk_counts (tokenizer self) (chunks (stdout p))
             - chunk_count (tokenizer self) (substring 0 1000 (stdout p)))
   <= max_output_length self)%Z ->
  (max_output_length self
   < Z.of_nat (sum_chunk_counts (tokenizer self) (chunks (stdout p))))%Z ->
  snd (execute w self overlapping code) = Return (stdout p)
  /\ snd (execute w self [] code)
     = Return (substring 0 (Z.to_nat (max_output_length self)) (stdout p)
               ++ "...")%string.
Proof.
  intros Hf Hs Hrc Hlen Hpos Hlo Hhi.
  rewrite !(execute_success _ _ _ _ _ _ Hf Hs Hrc).
  pose proof (overlapping_loses_first_chunk (tokenizer self) (stdout p) Hlen)
    as Hlost.
  unfold chunk_size in Hlost.
  rewrite (count_tokens_serialised (tokenizer self) [] (stdout p))
    by constructor.
  replace (Py.truthy (max_output_length self)) with true
    by (unfold Py.truthy; destruct (Z.eqb_spec (max_output_length self) 0);
        [lia | reflexivity]).
  split.
  - replace (_ >? _)%Z with false
      by (symmetry; rewrite Z.gtb_ltb; apply Z.ltb_ge; lia).
    reflexivity.
  - replace (_ >? _)%Z with true by (symmetry; apply Z.gtb_lt; lia).
    simpl. now rewrite slice_to_positive by lia.
Qed.


End MoreExecution.

(** ** Construction *)

Section Constructors.

Import Spec TikTokenizer CodeExecutor Construction Fixtures Scenarios.

Variable h : Host.

(** X17.  A constructed executor holds its three arguments as given, with
    no validation, and always the "o200k_base" encoding: the tokenizer
    cannot be chosen through the constructor.  Construction succeeds only
    after the directory was created, the log sink added and the encoding
    loaded, in that order. *)
Theorem executor_init_returns
  (max : Z) (dir lang : string) (ex : CodeExecutor.t) :
  snd (executor_init h max dir lang) = Return ex ->
  max_output_length ex = max
  /\ artifacts_dir ex = dir
  /\ language ex = lang
  /\ model_name (tokenizer ex) = "o200k_base"
  /\ get_encoding h "o200k_base" = inr (encoding (tokenizer ex))
  /\ fst (executor_init h max dir lang)
     = [MakeDirs dir;
        AddSink (path_join dir "code_execution.log")
                "{time} {level} {message}" "DEBUG";
        LogInfo "Logger initialized and artifacts directory set up.";
        GetEncoding "o200k_base"].
Proof.
  unfold executor_init, setup_logging, tokenizer_init, default_model_name,
    log_file.
  destruct (makedirs h dir) as [e|]; [discriminate|].
  destruct (add_sink h (path_join dir "code_execution.log")) as [e|];
    [discriminate|].
  destruct (get_encoding h "o200k_base") as [e|enc]; [discriminate|].
  simpl. intros [= <-]. simpl. auto 10.
Qed.

(** X18.  Construction is not undone when it fails late: if the
    "o200k_base" encoding cannot be loaded, the constructor raises
    [ValueError] naming the model and the cause, after the artifacts
    directory has been created and the log sink added. *)
Theorem executor_init_encoding_missing
  (max : Z) (dir lang cause : string) :
  makedirs h dir = None ->
  add_sink h (path_join dir "code_execution.log") = None ->
  get_encoding h "o200k_base" = inl cause ->
  executor_init h max dir lang
  = ([MakeDirs dir;
      AddSink (path_join dir "code_execution.log")
              "{time} {level} {message}" "DEBUG";
      LogInfo "Logger initialized and artifacts directory set up.";
      GetEncoding "o200k_base"],
     Raise (ValueError
              ("Failed to initialize tokenizer with model 'o200k_base': "
               ++ cause))).
Proof.
  intros Hd Hs He.
  unfold executor_init, setup_logging, tokenizer_init, default_model_name,
    log_file.
  rewrite Hd, Hs, He. reflexivity.
Qed.

End Constructors.

(** ** The byte-pair fixture is subadditive *)

Section PairEncoder.

Import TikTokenizer Fixtures Scenarios.

Lemma pair_encode_two (c d : ascii) (s : string) :
  pair_encode (String c (String d s))
  = if (Ascii.eqb c "a" && Ascii.eqb d "b")%bool
    then 256 :: pair_encode s
    else nat_of_ascii c :: pair_encode (String d s).
Proof. reflexivity. Qed.

Lemma pair_encode_one (c : ascii) :
  pair_encode (String c EmptyString) = [nat_of_ascii c].
Proof. reflexivity. Qed.

Lemma pair_encode_cons_le (c : ascii) (s : string) :
  List.length (pair_encode s) <= List.length (pair_encode (String c s)).
Proof.
  destruct s as [|d s].
  - simpl. lia.
  - rewrite pair_encode_two.
    destruct (Ascii.eqb c "a" && Ascii.eqb d "b")%bool eqn:E.
    + apply andb_prop in E. destruct E as [_ E].
      apply Ascii.eqb_eq in E. subst d.
      destruct s as [|e s].
      * simpl. lia.
      * rewrite pair_encode_two. simpl. lia.
    + simpl. lia.
Qed.

Lemma pair_encode_app_le : forall n (a : string),
  String.length a <= n ->
  forall b : string,
    List.length (pair_encode (a ++ b))
    <= List.length (pair_encode a) + List.length (pair_encode b).
Proof.
  induction n as [|n IH]; intros a Hn b.
  - destruct a; [simpl; lia | simpl in Hn; lia].
  - destruct a as [|c [|d a]].
    + simpl. lia.
    + cbn [append]. rewrite pair_encode_one.
      destruct b as [|d b]; [simpl; lia|].
      rewrite pair_encode_two.
      pose proof (pair_encode_cons_le d b).
      destruct (Ascii.eqb c "a" && Ascii.eqb d "b")%bool;
        cbn [List.length]; lia.
    + cbn [append]. rewrite !pair_encode_two.
      simpl in Hn.
      destruct (Ascii.eqb c "a" && Ascii.eqb d "b")%bool.
      * specialize (IH a ltac:(lia) b). cbn [List.length]. lia.
      * specialize (IH (String d a) ltac:(simpl; lia) b).
        cbn [append] in IH. cbn [List.length]. lia.
Qed.

Lemma pair_subadditive : subadditive pair_tokenizer.
Proof.
  intros a b. unfold chunk_count, encode. simpl.
  now apply (pair_encode_app_le (String.length a)).
Qed.

End PairEncoder.

(** ** The further properties on concrete inputs *)

Section MoreRuns.

Import Spec TikTokenizer CodeExecutor Construction Fixtures Scenarios.


(** X4 on a text of two chunks, counted in both orders. *)
Lemma count_tokens_serialised_agree_witness :
  serialised [Take; Take; Fetch 1; Put 1; Fetch 0; Put 0]
  /\ serialised [Take; Fetch 0; Put 0; Take; Fetch 0; Put 0]
  /\ count_tokens pair_tokenizer
       [Take; Take; Fetch 1; Put 1; Fetch 0; Put 0] text_ab
     = count_tokens pair_tokenizer
         [Take; Fetch 0; Put 0; Take; Fetch 0; Put 0] text_ab.
Proof.
  assert (H1 : serialised [Take; Take; Fetch 1; Put 1; Fetch 0; Put 0])
    by repeat constructor.
  assert (H2 : serialised [Take; Fetch 0; Put 0; Take; Fetch 0; Put 0])
    by repeat constructor.
  split; [exact H1|]. split; [exact H2|].
  exact (proj2 (count_tokens_serialised_agree pair_tokenizer _ _ text_ab
                  H1 H2)).
Defined.

(** X5 on 1001 characters, one token each: 1000 of the 1001 tokens are
    lost. *)
Lemma count_tokens_loses_first_chunk_witness :
  1000 < String.length text_a
  /\ count_tokens byte_tokenizer overlapping text_a
     = sum_chunk_counts byte_tokenizer (chunks text_a)
       - List.length (encode byte_tokenizer (substring 0 1000 text_a)).
Proof.
  assert (Hlen : 1000 < String.length text_a)
    by (apply Nat.ltb_lt; vm_compute; reflexivity).
  split; [exact Hlen|].
  exact (count_tokens_loses_first_chunk byte_tokenizer text_a Hlen).
Defined.

(** X6 with the byte-pair encoder on the text whose pair "ab" is cut by
    the chunk boundary. *)
Lemma count_tokens_subadditive_witness :
  subadditive pair_tokenizer
  /\ chunk_count pair_tokenizer EmptyString = 0
  /\ serialised []
  /\ List.length (encode pair_tokenizer text_ab)
     <= count_tokens pair_tokenizer [] text_ab.
Proof.
  split; [exact pair_subadditive|]. split; [reflexivity|].
  split; [constructor|].
  exact (count_tokens_subadditive pair_tokenizer [] text_ab
           pair_subadditive eq_refl serialised_nil).
Defined.

(** X8 on 1001 characters: two chunks, and only the second is counted. *)
Lemma count_tokens_worst_case_witness :
  text_a <> EmptyString
  /\ String.length text_a <= 10 * 1000
  /\ count_tokens byte_tokenizer
       (all_overlapping (List.length (chunks text_a))) text_a
     = List.length (encode byte_tokenizer (last (chunks text_a) EmptyString)).
Proof.
  assert (Hne : text_a <> EmptyString) by discriminate.
  assert (Hlen : String.length text_a <= 10 * 1000)
    by (apply Nat.leb_le; vm_compute; reflexivity).
  split; [exact Hne|]. split; [exact Hlen|].
  exact (count_tokens_worst_case byte_tokenizer text_a Hne Hlen).
Defined.


(** X11 when "python3" is not installed. *)
Lemma execute_interpreter_not_started_witness :
  spawn (missing_interpreter "No such file or directory: 'python3'")
        [language (executor 1000); "-c"; "print(1)"]
  = inl "No such file or directory: 'python3'"
  /\ snd (execute (missing_interpreter "No such file or directory: 'python3'")
                  (executor 1000) [] "print(1)")
     = Raise (OSError "No such file or directory: 'python3'").
Proof.
  split; [reflexivity|].
  rewrite (execute_interpreter_not_started
             (missing_interpreter "No such file or directory: 'python3'")
             (executor 1000) [] "print(1)" "print(1)"
             "No such file or directory: 'python3'" eq_refl eq_refl).
  reflexivity.
Defined.

(** X12 on the program that prints "a b c d e f g h", with
    [max_output_length = 5]. *)
Lemma execute_returns_prefix_witness :
  snd (execute (stub_world 0 "a b c d e f g h" "") (executor 5) []
               "print('a b c d e f g h', end='')")
  = Return "a b c..."
  /\ exists formatted p k,
       black_format_str (stub_world 0 "a b c d e f g h" "")
                        "print('a b c d e f g h', end='')"
       = inr formatted
       /\ spawn (stub_world 0 "a b c d e f g h" "")
                [language (executor 5); "-c"; formatted] = inr p
       /\ k <= String.length (stdout p)
       /\ ("a b c..." = stdout p
           \/ "a b c..." = (substring 0 k (stdout p) ++ "...")%string)
       /\ String.length "a b c..." <= String.length (stdout p) + 3.
Proof.
  split; [reflexivity|].
  exact (execute_returns_prefix
           (stub_world 0 "a b c d e f g h" "") (executor 5) []
           "print('a b c d e f g h', end='')" "a b c..." eq_refl).
Defined.

(** X13 with [max_output_length = -2] on the output "hello". *)
Lemma execute_negative_limit_witness :
  (max_output_length (executor (-2)) < 0)%Z
  /\ snd (execute (stub_world 0 "hello" "") (executor (-2)) overlapping
                  "print('hello', end='')")
     = Return "hel...".
Proof.
  split; [reflexivity|].
  rewrite (execute_negative_limit
             (stub_world 0 "hello" "") (executor (-2)) overlapping
             "print('hello', end='')" "print('hello', end='')"
             (stub_process "print('hello', end='')" 0 "hello" "")
             eq_refl eq_refl eq_refl eq_refl).
  reflexivity.
Defined.

(** X14 with two tokens per character and [max_output_length = 5]: the
    five characters of "hello" are ten tokens. *)
Lemma execute_marker_without_cut_witness :
  (Z.of_nat (String.length "hello")
   <= max_output_length (executor_with wide_tokenizer 5))%Z
  /\ (max_output_length (executor_with wide_tokenizer 5)
      < Z.of_nat (count_tokens wide_tokenizer [] "hello"))%Z
  /\ snd (execute (stub_world 0 "hello" "")
                  (executor_with wide_tokenizer 5) []
                  "print('hello', end='')")
     = Return "hello...".
Proof.
  assert (H1 : (Z.of_nat (String.length "hello")
                <= max_output_length (executor_with wide_tokenizer 5))%Z)
    by (vm_compute; discriminate).
  assert (H2 : (max_output_length (executor_with wide_tokenizer 5)
                < Z.of_nat (count_tokens wide_tokenizer [] "hello"))%Z)
    by reflexivity.
  split; [exact H1|]. split; [exact H2|].
  rewrite (execute_marker_without_cut
             (stub_world 0 "hello" "") (executor_with wide_tokenizer 5) []
             "print('hello', end='')" "print('hello', end='')"
             (stub_process "print('hello', end='')" 0 "hello" "")
             eq_refl eq_refl eq_refl H1 H2).
  reflexivity.
Defined.

(** X15 on an output of 1001 characters, one token each, with
    [max_output_length = 500]: 1 token is counted when the two updates
    overlap, 1001 otherwise. *)
Lemma execute_cut_depends_on_schedule_witness :
  1000 < String.length text_a
  /\ (Z.of_nat (sum_chunk_counts byte_tokenizer (chunks text_a)
                - chunk_count byte_tokenizer (substring 0 1000 text_a))
      <= 500)%Z
  /\ (500 < Z.of_nat (sum_chunk_counts byte_tokenizer (chunks text_a)))%Z
  /\ snd (execute (stub_world 0 text_a "") (executor 500) overlapping
                  "print('a' * 1001, end='')")
     = Return text_a
  /\ snd (execute (stub_world 0 text_a "") (executor 500) []
                  "print('a' * 1001, end='')")
     = Return (substring 0 (Z.to_nat 500) text_a ++ "...")%string.
Proof.
  assert (H1 : 1000 < String.length text_a)
    by (apply Nat.ltb_lt; vm_compute; reflexivity).
  assert (H2 : (Z.of_nat (sum_chunk_counts byte_tokenizer (chunks text_a)
                          - chunk_count byte_tokenizer
                              (substring 0 1000 text_a))
                <= 500)%Z) by (vm_compute; discriminate).
  assert (H3 : (500 < Z.of_nat (sum_chunk_counts byte_tokenizer
                                  (chunks text_a)))%Z)
    by (vm_compute; reflexivity).
  split; [exact H1|]. split; [exact H2|]. split; [exact H3|].
  exact (execute_cut_depends_on_schedule
           (stub_world 0 text_a "") (executor 500)
           "print('a' * 1001, end='')" "print('a' * 1001, end='')"
           (stub_process "print('a' * 1001, end='')" 0 text_a "")
           eq_refl eq_refl eq_refl H1 eq_refl H2 H3).
Defined.

(** X17 on a host where "o200k_base" is installed. *)
Lemma executor_init_returns_witness :
  snd (executor_init (host_with "o200k_base" (encoding byte_tokenizer))
                     (-3) "out/" "python3")
  = Return {| max_output_length := (-3);
              artifacts_dir := "out/";
              language := "python3";
              tokenizer := {| model_name := "o200k_base";
                              encoding := encoding byte_tokenizer |} |}
  /\ fst (executor_init (host_with "o200k_base" (encoding byte_tokenizer))
                        (-3) "out/" "python3")
     = [MakeDirs "out/";
        AddSink "out/code_execution.log" "{time} {level} {message}" "DEBUG";
        LogInfo "Logger initialized and artifacts directory set up.";
        GetEncoding "o200k_base"].
Proof.
  split; [reflexivity|].
  exact (proj2 (proj2 (proj2 (proj2 (proj2
           (executor_init_returns
              (host_with "o200k_base" (encoding byte_tokenizer))
              (-3) "out/" "python3" _ eq_refl)))))).
Defined.

(** X18 on a host where only "cl100k_base" is installed. *)
Lemma executor_init_encoding_missing_witness :
  get_encoding (host_with "cl100k_base" (encoding byte_tokenizer))
               "o200k_base"
  = inl "Unknown encoding o200k_base"
  /\ snd (executor_init (host_with "cl100k_base" (encoding byte_tokenizer))
                        1000 "artifacts" "python3")
     = Raise (ValueError
                "Failed to initialize tokenizer with model 'o200k_base': Unknown encoding o200k_base").
Proof.
  split; [reflexivity|].
  rewrite (executor_init_encoding_missing
             (host_with "cl100k_base" (encoding byte_tokenizer))
             1000 "artifacts" "python3" "Unknown encoding o200k_base"
             eq_refl eq_refl eq_refl).
  reflexivity.
Defined.

End MoreRuns.
